(** * quickmongo: the [Base] connection wrapper (src/Base.js)

    A shallow embedding of the class [Base] and of the part of the
    JavaScript platform its code touches: values with [typeof] and
    truthiness, the property read and call of line 17, exceptions,
    the emitter the class inherits from and the mongoose driver it
    talks to.

    Boundaries of the model.
    - The world keeps who has subscribed, with [on], to which event of
      which instance.  [emit] appends the notification to a chronological
      log, together with the fields of the emitting instance as a
      subscriber would read them at that moment; an "error" event of an
      instance nobody subscribed to for errors is not delivered: the
      inherited emitter throws.  Code run by subscribers, and
      subscriptions that end by themselves ([once]), are outside the model.
    - The mongoose driver is an external collaborator: its [connect] and
      [disconnect] are recorded as calls, its connection object keeps the
      listeners registered with [on] and delivers an event to them in
      registration order.
    - [new Date()] reads a clock that only the environment moves. *)

From Stdlib Require Import String Ascii ZArith List Bool Lia.
From Stdlib Require Import Floats.SpecFloat.
From stdpp Require Import base list strings.

Local Open Scope string_scope.
Local Open Scope list_scope.
Local Open Scope Z_scope.

(** ** JavaScript values *)

Module JS.

(** Modelled from the spec: the class exported by [./Error], which
    line 3 of Base.js binds to the name [Error] and which the specification
    calls ConfigurationError.  [TypeError] is the engine's own class,
    [ERR_UNHANDLED_ERROR] the one of the platform's emitter. *)
Inductive error_class : Type :=
| ConfigurationError
| TypeError
| ERR_UNHANDLED_ERROR.

#[local] Set Warnings "-register-all".

(** A callable is represented by its behaviour on one string argument, the
    only shape of call the source makes ([mongodbURL.startsWith("mongodb")]).
    Numbers are IEEE doubles. *)
Inductive value : Type :=
| VUndefined
| VNull
| VBool (b : bool)
| VNumber (n : spec_float)
| VBigInt (z : Z)
| VString (s : string)
| VSymbol (description : string)
| VObject (props : list (string * value))
| VStringObject (s : string)
| VDate (t : Z)
| VError (cls : error_class) (message : string)
| VFunction (body : string -> completion)
with completion : Type :=
| Normal (v : value)
| Abrupt (e : value).

(** The [typeof] operator. *)
Definition typeof (v : value) : string :=
  match v with
  | VUndefined => "undefined"
  | VNull => "object"
  | VBool _ => "boolean"
  | VNumber _ => "number"
  | VBigInt _ => "bigint"
  | VString _ => "string"
  | VSymbol _ => "symbol"
  | VObject _ | VStringObject _ | VDate _ | VError _ _ => "object"
  | VFunction _ => "function"
  end.

(** ToBoolean: [undefined], [null], [false], [0], [-0], [NaN], [0n] and the
    empty string are falsy, everything else is truthy. *)
Definition truthy (v : value) : bool :=
  match v with
  | VUndefined | VNull => false
  | VBool b => b
  | VNumber (S754_zero _) | VNumber S754_nan => false
  | VNumber _ => true
  | VBigInt z => negb (z =? 0)
  | VString s => negb (String.eqb s "")
  | _ => true
  end.

(** An own data property of an ordinary object. *)
Fixpoint own_property (k : string) (props : list (string * value)) : option value :=
  match props with
  | [] => None
  | (k', v) :: rest => if String.eqb k k' then Some v else own_property k rest
  end.

(** [String.prototype.startsWith] applied to the string [s]. *)
Definition String_startsWith (s : string) : value :=
  VFunction (fun searchString => Normal (VBool (String.prefix searchString s))).

(** The property read [v.startsWith].  Strings and String objects find the
    method on [String.prototype]; an ordinary object finds an own property or
    nothing; the other kinds of value carry no own properties here and no
    other prototype has a property of that name; reading a property of
    [undefined] or [null] throws. *)
Definition get_startsWith (v : value) : completion :=
  match v with
  | VUndefined | VNull =>
      Abrupt (VError TypeError "Cannot read properties of undefined or null")
  | VString s | VStringObject s => Normal (String_startsWith s)
  | VObject props =>
      match own_property "startsWith" props with
      | Some f => Normal f
      | None => Normal VUndefined
      end
  | _ => Normal VUndefined
  end.

(** The call [f(arg)]: calling what is not a function throws a TypeError. *)
Definition call (f : value) (arg : string) : completion :=
  match f with
  | VFunction body => body arg
  | _ => Abrupt (VError TypeError "mongodbURL.startsWith is not a function")
  end.

(** The method call [v.startsWith(arg)]. *)
Definition call_startsWith (v : value) (arg : string) : completion :=
  match get_startsWith v with
  | Normal f => call f arg
  | Abrupt e => Abrupt e
  end.

(** A parameter default [x = d] applies when the argument is [undefined]
    (which is also what a missing argument is). *)
Definition default_parameter (arg d : value) : value :=
  match arg with
  | VUndefined => d
  | _ => arg
  end.

(** The number [m], for a positive integer [m]. *)
Definition number (m : positive) : value := VNumber (S754_finite false m 0).

End JS.
Export JS.

(** ** The world: instances, notifications, driver, clock *)

(** A reference to an instance: its position in the store. *)
Abbreviation ref := nat (only parsing).

(** The fields of a [Base] instance.  A field that was never assigned reads
    [undefined]. *)
Record instance : Type := mkInstance {
  dbURL : value;
  options : value;
  readyAt : value
}.

(** What [super()] leaves: an emitter with no field assigned yet. *)
Definition blank : instance :=
  {| dbURL := VUndefined; options := VUndefined; readyAt := VUndefined |}.

(** One call of [emit]: who emitted, the event name, the payload, and the
    fields of the emitter at that moment. *)
Record emission : Type := mkEmission {
  em_source : ref;
  em_name : string;
  em_args : list value;
  em_view : option instance
}.

(** The two arrow functions of lines 35 to 45, each closed over [this]. *)
Inductive handler : Type :=
| ErrorHandler (this : ref)
| OpenHandler (this : ref).

Inductive driver_call : Type :=
| Connect (uri : value) (flags : value)
| Disconnect.

Record World : Type := mkWorld {
  heap : list instance;
  emitted : list emission;
  calls : list driver_call;
  listeners : list (string * handler);
  clock : Z;
  subscribers : list (ref * string)
}.

Definition init_world : World :=
  {| heap := []; emitted := []; calls := []; listeners := []; clock := 0;
     subscribers := [] |}.

Definition with_heap (h : list instance) (w : World) : World :=
  {| heap := h; emitted := emitted w; calls := calls w;
     listeners := listeners w; clock := clock w;
     subscribers := subscribers w |}.

Definition with_emitted (l : list emission) (w : World) : World :=
  {| heap := heap w; emitted := l; calls := calls w;
     listeners := listeners w; clock := clock w;
     subscribers := subscribers w |}.

Definition with_calls (l : list driver_call) (w : World) : World :=
  {| heap := heap w; emitted := emitted w; calls := l;
     listeners := listeners w; clock := clock w;
     subscribers := subscribers w |}.

Definition with_listeners (l : list (string * handler)) (w : World) : World :=
  {| heap := heap w; emitted := emitted w; calls := calls w;
     listeners := l; clock := clock w;
     subscribers := subscribers w |}.

Definition with_clock (t : Z) (w : World) : World :=
  {| heap := heap w; emitted := emitted w; calls := calls w;
     listeners := listeners w; clock := t;
     subscribers := subscribers w |}.

Definition with_subscribers (l : list (ref * string)) (w : World) : World :=
  {| heap := heap w; emitted := emitted w; calls := calls w;
     listeners := listeners w; clock := clock w; subscribers := l |}.

(** ** Statements: state threaded, exceptions propagated *)

Inductive outcome (A : Type) : Type :=
| Returned (a : A) (w : World)
| Threw (e : value) (w : World).
Arguments Returned {A} a w.
Arguments Threw {A} e w.

Definition M (A : Type) : Type := World -> outcome A.

Definition ret {A} (a : A) : M A := fun w => Returned a w.

Definition bind {A B} (m : M A) (k : A -> M B) : M B :=
  fun w => match m w with
           | Returned a w' => k a w'
           | Threw e w' => Threw e w'
           end.

Definition throw {A} (e : value) : M A := fun w => Threw e w.

Definition gets {A} (f : World -> A) : M A := fun w => Returned (f w) w.

Definition modify (f : World -> World) : M unit := fun w => Returned tt (f w).

Definition complete (c : completion) : M value :=
  match c with
  | Normal v => ret v
  | Abrupt e => throw e
  end.

(** [if (c) s] with no else branch. *)
Definition when (c : bool) (s : M unit) : M unit := if c then s else ret tt.

Declare Scope js_scope.
Delimit Scope js_scope with js.
Notation "x <- m ;; k" := (bind m (fun x => k))
  (at level 100, m at next level, right associativity) : js_scope.
Notation "m ;; k" := (bind m (fun _ => k))
  (at level 100, right associativity) : js_scope.
Local Open Scope js_scope.

Definition world_of {A} (o : outcome A) : World :=
  match o with
  | Returned _ w => w
  | Threw _ w => w
  end.

(** ** The inherited emitter and the fields of [this] *)

(** [super()]: a fresh emitter is allocated and becomes [this]. *)
Definition super : M ref :=
  fun w => Returned (length (heap w)) (with_heap (heap w ++ [blank]) w).

Definition read {A} (field : instance -> A) (d : A) (this : ref) : M A :=
  gets (fun w => match heap w !! this with
                 | Some b => field b
                 | None => d
                 end).

Definition assign (set : instance -> instance) (this : ref) : M unit :=
  modify (fun w => with_heap (alter set this (heap w)) w).

Definition set_dbURL (v : value) (b : instance) : instance :=
  {| dbURL := v; options := options b; readyAt := readyAt b |}.

Definition set_options (v : value) (b : instance) : instance :=
  {| dbURL := dbURL b; options := v; readyAt := readyAt b |}.

Definition set_readyAt (v : value) (b : instance) : instance :=
  {| dbURL := dbURL b; options := options b; readyAt := v |}.

(** Whether somebody has subscribed to the event [name] of [this]. *)
Definition listening (this : ref) (name : string) (w : World) : bool :=
  existsb (fun p => Nat.eqb p.1 this && String.eqb p.2 name) (subscribers w).

(** What the inherited emitter throws for an "error" event that has no
    listener: the payload itself when it is an Error, an error of its own
    otherwise (the text it adds about the payload is left out). *)
Definition unhandled (er : value) : value :=
  match er with
  | VError _ _ => er
  | _ => VError ERR_UNHANDLED_ERROR "Unhandled error."
  end.

(** [this.emit(name, ...args)]: the subscribers are notified; an "error"
    that has none is thrown instead. *)
Definition emit (this : ref) (name : string) (args : list value) : M unit :=
  fun w =>
    if String.eqb name "error" && negb (listening this "error" w)
    then Threw (unhandled (nth 0 args VUndefined)) w
    else Returned tt
           (with_emitted
              (emitted w ++ [mkEmission this name args (heap w !! this)]) w).

(** [new Date()]. *)
Definition new_Date : M value := gets (fun w => VDate (clock w)).

(** ** The mongoose driver *)

Module mongoose.

(** [mongoose.connect(uri, flags)]: the attempt is asynchronous, the call
    itself only starts it. *)
Definition connect (uri flags : value) : M unit :=
  modify (fun w => with_calls (calls w ++ [Connect uri flags]) w).

(** [mongoose.disconnect()], likewise. *)
Definition disconnect : M unit :=
  modify (fun w => with_calls (calls w ++ [Disconnect]) w).

(** [mongoose.connection.on(name, h)]. *)
Definition connection_on (name : string) (h : handler) : M unit :=
  modify (fun w => with_listeners (listeners w ++ [(name, h)]) w).

End mongoose.

(** ** The class [Base] *)

Module Base.

(** Lines 52 to 58. *)
Definition _create (this : ref) : M unit :=
  emit this "Creating database connection..." [] ;;
  url <- read dbURL VUndefined this ;;
  mongoose.connect url
    (VObject [("useNewUrlParser", VBool true);
              ("useUnifiedTopology", VBool true)]).

(** The condition of line 17:
    [!mongodbURL || !mongodbURL.startsWith("mongodb")]. *)
Definition no_mongodb_url (mongodbURL : value) : M bool :=
  if negb (truthy mongodbURL) then ret true
  else r <- complete (call_startsWith mongodbURL "mongodb") ;;
       ret (negb (truthy r)).

(** The condition of line 19:
    [connectionOptions && typeof connectionOptions !== "object"]. *)
Definition not_an_object (connectionOptions : value) : bool :=
  truthy connectionOptions
  && negb (String.eqb (typeof connectionOptions) "object").

(** [new Error(message)], with [Error] the class required on line 3. *)
Definition new_Error (message : string) : value :=
  VError ConfigurationError message.

(** Lines 15 to 46: [new Base(mongodbURL, connectionOptions)]. *)
Definition constructor (mongodbURL connectionOptions : value) : M ref :=
  let connectionOptions := default_parameter connectionOptions (VObject []) in
  this <- super ;;
  bad <- no_mongodb_url mongodbURL ;;
  when bad (throw (new_Error "No mongodb url was provided!")) ;;
  when (negb (String.eqb (typeof mongodbURL) "string"))
    (throw (new_Error
       ("Expected a string for mongodbURL, received " +:+ typeof mongodbURL))) ;;
  when (not_an_object connectionOptions)
    (throw (new_Error
       ("Expected Object for connectionOptions, received "
        +:+ typeof connectionOptions))) ;;
  assign (set_dbURL mongodbURL) this ;;
  assign (set_options connectionOptions) this ;;
  _create this ;;
  mongoose.connection_on "error" (ErrorHandler this) ;;
  mongoose.connection_on "open" (OpenHandler this) ;;
  ret this.

(** Lines 64 to 69. *)
Definition _destroyDatabase (this : ref) : M unit :=
  mongoose.disconnect ;;
  assign (set_readyAt VUndefined) this ;;
  assign (set_dbURL VNull) this ;;
  emit this "debug" [VString "Database disconnected!"].

(** The listener of lines 35 to 37: [(e) => { this.emit("error", e); }]. *)
Definition on_error (this : ref) (args : list value) : M unit :=
  emit this "error" [nth 0 args VUndefined].

(** The listener of lines 38 to 45. *)
Definition on_open (this : ref) : M unit :=
  now <- new_Date ;;
  assign (set_readyAt now) this ;;
  emit this "ready" [].

End Base.

(** ** The driver delivering an event *)

Definition run_handler (h : handler) (args : list value) : M unit :=
  match h with
  | ErrorHandler this => Base.on_error this args
  | OpenHandler this => Base.on_open this
  end.

(** The listeners registered under [name], called in registration order. *)
Fixpoint dispatch (ls : list (string * handler)) (name : string)
    (args : list value) : M unit :=
  match ls with
  | [] => ret tt
  | (n, h) :: rest =>
      when (String.eqb n name) (run_handler h args) ;;
      dispatch rest name args
  end.

(** [mongoose.connection.emit(name, ...args)], done by the driver. *)
Definition connection_emit (name : string) (args : list value) : M unit :=
  ls <- gets listeners ;;
  dispatch ls name args.

(** ** Runs *)

(** [db.off(name, listener)]: one subscription less, if there is one. *)
Fixpoint unsubscribe (this : ref) (name : string) (l : list (ref * string))
    : list (ref * string) :=
  match l with
  | [] => []
  | p :: rest =>
      if Nat.eqb p.1 this && String.eqb p.2 name then rest
      else p :: unsubscribe this name rest
  end.

(** What can happen to the world: a caller constructs a manager or tears one
    down, the driver reports an event, the clock is moved, a caller
    subscribes to an event of an instance that exists ([db.on(name,
    listener)]) or takes a subscription back.  An exception that comes out
    of a step is the caller's, or the driver's, to deal with: the run goes
    on from the world it left. *)
Inductive action : Type :=
| New (mongodbURL connectionOptions : value)
| Teardown (this : ref)
| DriverEmit (name : string) (args : list value)
| Tick (t : Z)
| Subscribe (this : ref) (name : string)
| Unsubscribe (this : ref) (name : string).

Definition step (w : World) (a : action) : World :=
  match a with
  | New url opts => world_of (Base.constructor url opts w)
  | Teardown this => world_of (Base._destroyDatabase this w)
  | DriverEmit name args => world_of (connection_emit name args w)
  | Tick t => with_clock t w
  | Subscribe this name =>
      if Nat.ltb this (length (heap w))
      then with_subscribers (subscribers w ++ [(this, name)]) w
      else w
  | Unsubscribe this name =>
      with_subscribers (unsubscribe this name (subscribers w)) w
  end.

Definition run (acts : list action) (w : World) : World :=
  fold_left step acts w.


(** The notifications a given instance has emitted, oldest first. *)
Definition emitted_by (this : ref) (w : World) : list emission :=
  filter (fun e => em_source e = this) (emitted w).

(** ** Descriptions used in the statements *)

Definition is_ConfigurationError (e : value) : bool :=
  match e with
  | VError ConfigurationError _ => true
  | _ => false
  end.

(** The world in which a constructor call that throws ends: the emitter
    made by [super()] exists, nothing refers to it. *)
Definition allocated (w : World) : World :=
  with_heap (heap w ++ [blank]) w.

Definition compatibility_flags : value :=
  VObject [("useNewUrlParser", VBool true); ("useUnifiedTopology", VBool true)].

(** The fields of a manager right after construction. *)
Definition fresh (url opts : value) : instance :=
  {| dbURL := url; options := opts; readyAt := VUndefined |}.

(** The world in which a constructor call that returns ends, [opts] being
    the options after the parameter default. *)
Definition constructed (url opts : value) (w : World) : World :=
  let this := length (heap w) in
  {| heap := heap w ++ [fresh url opts];
     emitted := emitted w ++
       [mkEmission this "Creating database connection..." []
          (Some (fresh url opts))];
     calls := calls w ++ [Connect url compatibility_flags];
     listeners := listeners w ++
       [("error", ErrorHandler this); ("open", OpenHandler this)];
     clock := clock w;
     subscribers := subscribers w |}.

(** The fields of a manager after teardown. *)
Definition cleared (b : instance) : instance :=
  {| dbURL := VNull; options := options b; readyAt := VUndefined |}.

Definition debug_disconnected (this : ref) (b : instance) : emission :=
  mkEmission this "debug" [VString "Database disconnected!"] (Some (cleared b)).

(** The world after [this._destroyDatabase()], [b] being the fields of
    [this] before the call. *)
Definition torn_down (this : ref) (b : instance) (w : World) : World :=
  {| heap := <[this := cleared b]> (heap w);
     emitted := emitted w ++ [debug_disconnected this b];
     calls := calls w ++ [Disconnect];
     listeners := listeners w;
     clock := clock w;
     subscribers := subscribers w |}.

(** The world after the listener of lines 35 to 37 ran for [this]. *)
Definition errored (this : ref) (args : list value) (w : World) : World :=
  with_emitted
    (emitted w ++
     [mkEmission this "error" [nth 0 args VUndefined] (heap w !! this)]) w.

(** The world after the listener of lines 38 to 45 ran for [this]. *)
Definition opened (this : ref) (w : World) : World :=
  let h := alter (set_readyAt (VDate (clock w))) this (heap w) in
  with_emitted (emitted w ++ [mkEmission this "ready" [] (h !! this)])
    (with_heap h w).

#[global] Instance handler_eq_dec : EqDecision handler.
Proof. solve_decision. Defined.

(** How many times the listener [h] is registered on the connection. *)
Definition subscriptions (h : handler) (ls : list (string * handler)) : nat :=
  length (filter (fun p => p.2 = h) ls).

(** Every registered listener sits under the event it was written for and
    belongs to an allocated instance. *)
Definition listener_ok (n : nat) (p : string * handler) : Prop :=
  match p.2 with
  | ErrorHandler this => p.1 = "error" /\ (this < n)%nat
  | OpenHandler this => p.1 = "open" /\ (this < n)%nat
  end.

Definition wf (w : World) : Prop :=
  Forall (listener_ok (length (heap w))) (listeners w).

(** The instance [this] exists and its two listeners are registered once. *)
Definition registered (this : ref) (w : World) : Prop :=
  (this < length (heap w))%nat
  /\ subscriptions (ErrorHandler this) (listeners w) = 1%nat
  /\ subscriptions (OpenHandler this) (listeners w) = 1%nat.

(** The managers an "error" event gets to: the error listeners are called
    in the order of their registration, until one belongs to a manager
    nobody listens to for errors. *)
Fixpoint served (ls : list (string * handler)) (w : World) : list ref :=
  match ls with
  | [] => []
  | (_, ErrorHandler i) :: rest =>
      if listening i "error" w then i :: served rest w else []
  | (_, OpenHandler _) :: rest => served rest w
  end.

(** Somebody listens to the errors of [this] and to those of every manager
    whose error listener was registered before that of [this]. *)
Fixpoint heard_until (this : ref) (ls : list (string * handler)) (w : World)
    : bool :=
  match ls with
  | [] => true
  | (_, ErrorHandler i) :: rest =>
      listening i "error" w && (Nat.eqb i this || heard_until this rest w)
  | (_, OpenHandler _) :: rest => heard_until this rest w
  end.


Definition test_url : value := VString "mongodb://localhost/test".

Definition zero : value := VNumber (S754_zero false).

(** The world after [new Base("mongodb://localhost/test")] and nothing
    else. *)
Definition demo_world : World := constructed test_url (VObject []) init_world.

(** ** Descriptions of whole runs *)

(** The arguments with which [new Base] gives a manager: a string that
    starts with "mongodb", and options that line 19 lets through. *)
Definition accepted (mongodbURL connectionOptions : value) : bool :=
  match mongodbURL with
  | VString s =>
      String.prefix "mongodb" s
      && negb (Base.not_an_object
                 (default_parameter connectionOptions (VObject [])))
  | _ => false
  end.

(** The call an action makes to the driver, if it makes one. *)
Definition call_of (a : action) : option driver_call :=
  match a with
  | New url opts =>
      if accepted url opts then Some (Connect url compatibility_flags)
      else None
  | Teardown _ => Some Disconnect
  | DriverEmit _ _ | Tick _ | Subscribe _ _ | Unsubscribe _ _ => None
  end.

(** The references of the managers that [acts] constructs, in order, when
    [next] is the first free reference.  Every [new] uses up a reference,
    a manager comes out of the accepted ones. *)
Fixpoint managers (acts : list action) (next : ref) : list ref :=
  match acts with
  | [] => []
  | New url opts :: rest =>
      (if accepted url opts then [next] else []) ++ managers rest (S next)
  | _ :: rest => managers rest next
  end.

(** The managers of [ms], in order, up to the first nobody listens to for
    errors. *)
Fixpoint heard_managers (ms : list ref) (w : World) : list ref :=
  match ms with
  | [] => []
  | i :: rest =>
      if listening i "error" w then i :: heard_managers rest w else []
  end.

(** The two listeners that lines 35 and 38 register for [this]. *)
Definition listeners_of (this : ref) : list (string * handler) :=
  [("error", ErrorHandler this); ("open", OpenHandler this)].

(** A manager on its own: its fields and the clock, what an action does to
    them and which notifications the manager emits on it. *)
Definition manager_step (this : ref) (s : instance * Z) (a : action)
    : (instance * Z) * list emission :=
  let '(b, t) := s in
  match a with
  | New _ _ => ((b, t), [])
  | Teardown that =>
      if decide (that = this)
      then ((cleared b, t), [debug_disconnected this b])
      else ((b, t), [])
  | DriverEmit name args =>
      if String.eqb name "error" then
        ((b, t), [mkEmission this "error" [nth 0 args VUndefined] (Some b)])
      else if String.eqb name "open" then
        let b' := set_readyAt (VDate t) b in
        ((b', t), [mkEmission this "ready" [] (Some b')])
      else ((b, t), [])
  | Tick t' => ((b, t'), [])
  | Subscribe _ _ | Unsubscribe _ _ => ((b, t), [])
  end.

Fixpoint manager_run (this : ref) (s : instance * Z) (acts : list action)
    : (instance * Z) * list emission :=
  match acts with
  | [] => (s, [])
  | a :: rest =>
      let '(s1, out1) := manager_step this s a in
      let '(s2, out2) := manager_run this s1 rest in
      (s2, out1 ++ out2)
  end.

(** When [a] is an "error" event, somebody listens to the errors of [this]
    and of the managers constructed before it. *)
Definition error_heard (this : ref) (a : action) (w : World) : bool :=
  match a with
  | DriverEmit name _ =>
      if String.eqb name "error" then heard_until this (listeners w) w
      else true
  | _ => true
  end.

(** The same at every "error" event of the run [acts] from [w]. *)
Fixpoint errors_heard (this : ref) (acts : list action) (w : World) : bool :=
  match acts with
  | [] => true
  | a :: rest => error_heard this a w && errors_heard this rest (step w a)
  end.

(** [acts] tears the manager [this] down at least once. *)
Definition tears_down (this : ref) (acts : list action) : bool :=
  existsb (fun a => match a with
                    | Teardown that => Nat.eqb that this
                    | _ => false
                    end) acts.

(** The driver reports "open" somewhere in [acts]. *)
Definition reports_open (acts : list action) : bool :=
  existsb (fun a => match a with
                    | DriverEmit name _ => String.eqb name "open"
                    | _ => false
                    end) acts.

(** What can be called. *)
Definition callable (f : value) : bool :=
  match f with
  | VFunction _ => true
  | _ => false
  end.

(** ** The constructor *)

Lemma alter_snoc {A} (f : A -> A) (l : list A) (x : A) :
  alter f (length l) (l ++ [x]) = l ++ [f x].
Proof.
  replace (length l) with (length l + 0)%nat by lia.
  by rewrite alter_app_r.
Qed.

Lemma lookup_snoc {A} (l : list A) (x : A) :
  (l ++ [x]) !! length l = Some x.
Proof. by rewrite list_lookup_middle. Qed.

(** Evaluating the condition of line 17 leaves the world as it is. *)
Lemma no_mongodb_url_pure url w :
  (exists b, Base.no_mongodb_url url w = Returned b w)
  \/ (exists e, Base.no_mongodb_url url w = Threw e w).
Proof.
  unfold Base.no_mongodb_url, bind, complete.
  destruct (negb (truthy url)); [left; by eexists |].
  destruct (call_startsWith url "mongodb"); [left | right]; by eexists.
Qed.

Lemma constructor_check_throws url opts w e w' :
  Base.no_mongodb_url url (allocated w) = Threw e w' ->
  Base.constructor url opts w = Threw e w'.
Proof.
  intros H. unfold Base.constructor, bind, super. fold (allocated w).
  by rewrite H.
Qed.

(** The constructor once the condition of line 17 has a value. *)
Lemma constructor_checked url opts w (bad : bool) :
  Base.no_mongodb_url url (allocated w) = Returned bad (allocated w) ->
  Base.constructor url opts w =
    let opts' := default_parameter opts (VObject []) in
    if bad then
      Threw (Base.new_Error "No mongodb url was provided!") (allocated w)
    else if negb (String.eqb (typeof url) "string") then
      Threw (Base.new_Error
               ("Expected a string for mongodbURL, received " +:+ typeof url))
            (allocated w)
    else if Base.not_an_object opts' then
      Threw (Base.new_Error
               ("Expected Object for connectionOptions, received "
                +:+ typeof opts'))
            (allocated w)
    else Returned (length (heap w)) (constructed url opts' w).
Proof.
  intros H. unfold Base.constructor, bind, super. fold (allocated w).
  rewrite H. cbv zeta.
  destruct bad; [reflexivity |].
  destruct (negb (String.eqb (typeof url) "string")); [reflexivity |].
  destruct (Base.not_an_object _); [reflexivity |].
  cbn [when ret]. unfold Base._create, bind, assign, modify, emit, read, gets,
    mongoose.connect, mongoose.connection_on, ret, allocated, constructed.
  destruct w as [h em cs ls t]; cbn.
  rewrite !alter_snoc, !lookup_snoc. cbn.
  rewrite <- !app_assoc. reflexivity.
Qed.

(** On a string, line 17 asks whether ["mongodb"] is a prefix. *)
Lemma string_url_check s w :
  Base.no_mongodb_url (VString s) w
  = Returned (negb (String.prefix "mongodb" s)) w.
Proof. destruct s; reflexivity. Qed.

(** A string that passes line 17 also passes line 18. *)
Lemma constructor_string_url s opts w :
  Base.constructor (VString s) opts w =
    let opts' := default_parameter opts (VObject []) in
    if negb (String.prefix "mongodb" s) then
      Threw (Base.new_Error "No mongodb url was provided!") (allocated w)
    else if Base.not_an_object opts' then
      Threw (Base.new_Error
               ("Expected Object for connectionOptions, received "
                +:+ typeof opts'))
            (allocated w)
    else Returned (length (heap w)) (constructed (VString s) opts' w).
Proof.
  rewrite (constructor_checked _ _ _ _ (string_url_check s (allocated w))).
  reflexivity.
Qed.

(** A falsy connection string of any type stops at line 17. *)
Lemma falsy_url_rejected url opts w :
  truthy url = false ->
  Base.constructor url opts w
  = Threw (Base.new_Error "No mongodb url was provided!") (allocated w).
Proof.
  intros H.
  rewrite (constructor_checked url opts w true); [reflexivity |].
  unfold Base.no_mongodb_url. by rewrite H.
Qed.

(** No value that is not a string gets through the constructor: it throws,
    although not always the class the specification names. *)
Lemma nonstring_url_fails url opts w :
  String.eqb (typeof url) "string" = false ->
  exists e, Base.constructor url opts w = Threw e (allocated w).
Proof.
  intros Hty.
  destruct (no_mongodb_url_pure url (allocated w)) as [[bad H] | [e H]].
  - rewrite (constructor_checked _ _ _ _ H). cbv zeta. rewrite Hty.
    destruct bad; by eexists.
  - exists e. by apply constructor_check_throws.
Qed.

(** Line 18 is reached by a String object: it has the method and is not of
    type "string". *)
Lemma string_object_rejected s opts w :
  String.prefix "mongodb" s = true ->
  Base.constructor (VStringObject s) opts w
  = Threw (Base.new_Error "Expected a string for mongodbURL, received object")
          (allocated w).
Proof.
  intros H.
  rewrite (constructor_checked _ opts w false); [reflexivity |].
  unfold Base.no_mongodb_url, bind, complete. cbn. by rewrite H.
Qed.

(** With a string as connection string, nothing but the configuration error
    is ever thrown. *)
Lemma string_url_throws_only_ConfigurationError s opts w e w' :
  Base.constructor (VString s) opts w = Threw e w' ->
  is_ConfigurationError e = true /\ w' = allocated w.
Proof.
  rewrite constructor_string_url. cbv zeta.
  destruct (negb _); [by intros [= <- <-] |].
  destruct (Base.not_an_object _); [by intros [= <- <-] | discriminate].
Qed.

(** C1 (the code departs from the claim): [new Base(42)].  The number 42 is
    not a string, yet what the constructor throws is the engine's TypeError,
    raised by the method call of line 17, and not the configuration error:
    the type check of line 18 comes too late. *)
Theorem number_url_throws_TypeError opts w :
  String.eqb (typeof (number 42)) "string" = false
  /\ Base.constructor (number 42) opts w
     = Threw (VError TypeError "mongodbURL.startsWith is not a function")
             (allocated w)
  /\ is_ConfigurationError
       (VError TypeError "mongodbURL.startsWith is not a function") = false.
Proof.
  split; [reflexivity |]. split; [| reflexivity].
  by apply constructor_check_throws.
Qed.

(** C4: a connection string that is empty or does not start with "mongodb"
    makes the constructor throw the configuration error of line 17, whatever
    the options and the world; no reference is returned. *)
Theorem bad_url_rejected s opts w :
  s = "" \/ String.prefix "mongodb" s = false ->
  Base.constructor (VString s) opts w
  = Threw (VError ConfigurationError "No mongodb url was provided!")
          (allocated w).
Proof.
  intros H. rewrite constructor_string_url. cbv zeta.
  assert (String.prefix "mongodb" s = false) as ->; [| reflexivity].
  destruct H as [-> | H]; [reflexivity | exact H].
Qed.

Lemma bad_url_rejected_redis :
  Base.constructor (VString "redis://localhost") VUndefined init_world
  = Threw (VError ConfigurationError "No mongodb url was provided!")
          (allocated init_world).
Proof. apply (bad_url_rejected "redis://localhost"). right. reflexivity. Defined.

(** C8 (the code departs from the claim): [new Base({})] and
    [new Base(true)] throw a TypeError, which is not a configuration error:
    line 17 calls a method that these values do not have, before line 18
    looks at their type. *)
Theorem constructor_throws_TypeError opts w :
  Base.constructor (VObject []) opts w
  = Threw (VError TypeError "mongodbURL.startsWith is not a function")
          (allocated w)
  /\ Base.constructor (VBool true) opts w
     = Threw (VError TypeError "mongodbURL.startsWith is not a function")
             (allocated w)
  /\ is_ConfigurationError
       (VError TypeError "mongodbURL.startsWith is not a function") = false.
Proof.
  split; [by apply constructor_check_throws |].
  split; [by apply constructor_check_throws | reflexivity].
Qed.

(** A connection string that starts with "mongodb", with options that pass
    line 19, gives a manager. *)
Lemma constructor_valid s opts w :
  String.prefix "mongodb" s = true ->
  Base.not_an_object (default_parameter opts (VObject [])) = false ->
  Base.constructor (VString s) opts w
  = Returned (length (heap w))
      (constructed (VString s) (default_parameter opts (VObject [])) w).
Proof.
  intros Hs Ho. rewrite constructor_string_url. cbv zeta.
  by rewrite Hs, Ho.
Qed.

(** However the constructor ends, it ends in one of two worlds. *)
Lemma constructor_outcome url opts w :
  (exists e, Base.constructor url opts w = Threw e (allocated w))
  \/ Base.constructor url opts w
     = Returned (length (heap w))
         (constructed url (default_parameter opts (VObject [])) w).
Proof.
  destruct (no_mongodb_url_pure url (allocated w)) as [[bad H] | [e H]].
  - rewrite (constructor_checked _ _ _ _ H). cbv zeta.
    destruct bad; [left; by eexists |].
    destruct (negb _); [left; by eexists |].
    destruct (Base.not_an_object _); [left; by eexists | by right].
  - left. exists e. by apply constructor_check_throws.
Qed.

Lemma constructor_returns url opts w this w1 :
  Base.constructor url opts w = Returned this w1 ->
  this = length (heap w)
  /\ w1 = constructed url (default_parameter opts (VObject [])) w.
Proof.
  destruct (constructor_outcome url opts w) as [[e H] | H];
    rewrite H; [discriminate | by intros [= <- <-]].
Qed.

(** C2, as it is worded, fails: [new Base("mongodb://localhost/test", 0)].
    The number 0 is provided and is not an object, and the constructor
    returns a manager whose options are 0. *)
Lemma zero_options_accepted :
  zero <> VUndefined
  /\ String.eqb (typeof zero) "object" = false
  /\ Base.constructor test_url zero init_world
     = Returned 0%nat (constructed test_url zero init_world)
  /\ ~ (forall url opts w,
          opts <> VUndefined ->
          String.eqb (typeof opts) "object" = false ->
          exists e w',
            Base.constructor url opts w = Threw e w'
            /\ is_ConfigurationError e = true).
Proof.
  split; [discriminate |]. split; [reflexivity |]. split; [reflexivity |].
  intros H.
  destruct (H test_url zero init_world) as (e & w' & Hc & _);
    [discriminate | reflexivity | discriminate Hc].
Qed.

(** C2, amended: with a connection string that passes the first two checks,
    options that are not of type "object" are rejected with the
    configuration error of line 19 exactly when they are truthy; falsy ones
    pass the guard of line 19 and the manager is built, keeping them as its
    options ([undefined] being replaced by the default). *)
Theorem options_check s opts w :
  String.prefix "mongodb" s = true ->
  String.eqb (typeof opts) "object" = false ->
  (truthy opts = true ->
   Base.constructor (VString s) opts w
   = Threw (VError ConfigurationError
              ("Expected Object for connectionOptions, received "
               +:+ typeof opts))
           (allocated w))
  /\ (truthy opts = false ->
      Base.constructor (VString s) opts w
      = Returned (length (heap w))
          (constructed (VString s) (default_parameter opts (VObject [])) w)).
Proof.
  intros Hs Hty. rewrite constructor_string_url. cbv zeta. rewrite Hs.
  cbn [negb]. split; intros Ht.
  - assert (default_parameter opts (VObject []) = opts) as ->
      by (destruct opts; try reflexivity; discriminate Ht).
    unfold Base.not_an_object. by rewrite Ht, Hty.
  - assert (Base.not_an_object (default_parameter opts (VObject [])) = false)
      as ->; [| reflexivity].
    unfold Base.not_an_object.
    destruct opts; try (cbn in *; by rewrite Ht); reflexivity.
Qed.

Lemma options_check_five_and_zero :
  Base.constructor test_url (number 5) init_world
  = Threw (VError ConfigurationError
             "Expected Object for connectionOptions, received number")
          (allocated init_world)
  /\ Base.constructor test_url zero init_world
     = Returned 0%nat (constructed test_url zero init_world).
Proof.
  split.
  - apply (options_check "mongodb://localhost/test" (number 5) init_world);
      reflexivity.
  - apply (options_check "mongodb://localhost/test" zero init_world);
      reflexivity.
Defined.

(** C3 (the code departs from the claim): [_create] does emit when the
    connection attempt starts, but the event is named
    "Creating database connection..." and carries no payload; it is not a
    "debug" notification.  So the construction of
    [new Base("mongodb://localhost/test")] emits no "debug" at all. *)
Theorem create_emits_no_debug this w :
  (exists w',
     Base._create this w = Returned tt w'
     /\ emitted w' = emitted w ++
          [mkEmission this "Creating database connection..." []
             (heap w !! this)])
  /\ (exists w1,
        Base.constructor test_url VUndefined init_world = Returned 0%nat w1
        /\ emitted w1 =
             [mkEmission 0%nat "Creating database connection..." []
                (Some (fresh test_url (VObject [])))]
        /\ filter (fun e => em_name e = "debug") (emitted w1) = []).
Proof.
  split.
  - eexists. split; reflexivity.
  - eexists. split; [reflexivity |]. split; reflexivity.
Qed.

(** ** Teardown *)

Lemma alter_clear (h : list instance) this b :
  h !! this = Some b ->
  alter (set_dbURL VNull) this (alter (set_readyAt VUndefined) this h)
  = <[this := cleared b]> h.
Proof.
  intros H. apply list_eq. intros j.
  destruct (decide (this = j)) as [<- | Hne].
  - rewrite !list_lookup_alter_eq, H.
    rewrite list_lookup_insert_eq by (by eapply lookup_lt_Some).
    reflexivity.
  - by rewrite !list_lookup_alter_ne, list_lookup_insert_ne.
Qed.

(** Teardown of an existing instance returns, in the world [torn_down]. *)
Lemma destroy_effect this w b :
  heap w !! this = Some b ->
  Base._destroyDatabase this w = Returned tt (torn_down this b w).
Proof.
  intros H.
  unfold Base._destroyDatabase, bind, mongoose.disconnect, assign, emit,
    modify, torn_down.
  unfold with_calls, with_heap, with_emitted.
  cbn [heap emitted calls listeners clock].
  rewrite (alter_clear _ this b H).
  rewrite list_lookup_insert_eq by (by eapply lookup_lt_Some).
  reflexivity.
Qed.

Lemma torn_down_lookup this w b :
  heap w !! this = Some b ->
  heap (torn_down this b w) !! this = Some (cleared b).
Proof.
  intros H. cbn. apply list_lookup_insert_eq. by eapply lookup_lt_Some.
Qed.

(** C5: teardown of a manager, in any world, returns; afterwards [readyAt]
    is undefined and [dbURL] is null; the call has emitted one notification,
    "debug" with the message "Database disconnected!", seen by subscribers
    with both fields already cleared; it has emitted no "error". *)
Theorem teardown_clears_and_emits_debug this w b :
  heap w !! this = Some b ->
  exists w' b',
    Base._destroyDatabase this w = Returned tt w'
    /\ heap w' !! this = Some b'
    /\ readyAt b' = VUndefined
    /\ dbURL b' = VNull
    /\ emitted w' = emitted w ++
         [mkEmission this "debug" [VString "Database disconnected!"]
            (Some b')]
    /\ Forall (fun e => em_name e <> "error")
         (drop (length (emitted w)) (emitted w')).
Proof.
  intros H. exists (torn_down this b w), (cleared b).
  split; [by apply destroy_effect |].
  split; [by apply torn_down_lookup |].
  do 3 (split; [reflexivity |]).
  cbn. rewrite drop_app_length. by repeat constructor.
Qed.

Lemma teardown_clears_and_emits_debug_demo :
  exists w' b',
    Base._destroyDatabase 0%nat demo_world = Returned tt w'
    /\ heap w' !! 0%nat = Some b'
    /\ readyAt b' = VUndefined
    /\ dbURL b' = VNull
    /\ emitted w' = emitted demo_world ++
         [mkEmission 0%nat "debug" [VString "Database disconnected!"]
            (Some b')]
    /\ Forall (fun e => em_name e <> "error")
         (drop (length (emitted demo_world)) (emitted w')).
Proof.
  apply (teardown_clears_and_emits_debug 0%nat demo_world
           (fresh test_url (VObject []))).
  reflexivity.
Defined.

(** C9: a second teardown leaves the store of instances, the listeners and
    the clock as the first one left them, the manager having [readyAt]
    undefined and [dbURL] null; each of the two calls emits its own "debug"
    notification. *)
Theorem teardown_twice this w b :
  heap w !! this = Some b ->
  exists w1 w2,
    Base._destroyDatabase this w = Returned tt w1
    /\ Base._destroyDatabase this w1 = Returned tt w2
    /\ heap w2 = heap w1
    /\ heap w1 !! this = Some (cleared b)
    /\ listeners w2 = listeners w1
    /\ clock w2 = clock w1
    /\ emitted w1 = emitted w ++ [debug_disconnected this b]
    /\ emitted w2 = emitted w1 ++ [debug_disconnected this b].
Proof.
  intros H.
  pose proof (torn_down_lookup this w b H) as H1.
  exists (torn_down this b w), (torn_down this (cleared b) (torn_down this b w)).
  split; [by apply destroy_effect |].
  split; [by apply destroy_effect |].
  split; [cbn; apply list_insert_insert_eq |].
  by repeat split.
Qed.

Lemma teardown_twice_demo :
  exists w1 w2,
    Base._destroyDatabase 0%nat demo_world = Returned tt w1
    /\ Base._destroyDatabase 0%nat w1 = Returned tt w2
    /\ heap w2 = heap w1
    /\ heap w1 !! 0%nat = Some (cleared (fresh test_url (VObject [])))
    /\ listeners w2 = listeners w1
    /\ clock w2 = clock w1
    /\ emitted w1 = emitted demo_world ++
         [debug_disconnected 0%nat (fresh test_url (VObject []))]
    /\ emitted w2 = emitted w1 ++
         [debug_disconnected 0%nat (fresh test_url (VObject []))].
Proof.
  apply (teardown_twice 0%nat demo_world (fresh test_url (VObject []))).
  reflexivity.
Defined.



(** ** Events delivered by the driver *)

Lemma subscriptions_cons h p ls :
  subscriptions h (p :: ls)
  = if decide (p.2 = h) then S (subscriptions h ls) else subscriptions h ls.
Proof.
  unfold subscriptions. rewrite filter_cons. by destruct (decide (p.2 = h)).
Qed.

Lemma subscriptions_app h l1 l2 :
  subscriptions h (l1 ++ l2)
  = (subscriptions h l1 + subscriptions h l2)%nat.
Proof. unfold subscriptions. by rewrite filter_app, length_app. Qed.

Lemma emitted_by_emit this that name args w w' :
  emit that name args w = Returned tt w' ->
  emitted_by this w'
  = emitted_by this w ++
      (if decide (that = this)
       then [mkEmission that name args (heap w !! that)] else []).
Proof.
  unfold emit. destruct (_ && _); [discriminate |].
  intros [= <-]. unfold emitted_by. cbn [emitted with_emitted].
  rewrite filter_app, filter_cons, filter_nil. cbn [em_source].
  by destruct (decide (that = this)).
Qed.

(** What the two listeners do: the one for "open" always returns, the one
    for "error" throws when nobody listens to the errors of its manager. *)
Lemma run_handler_effect h args w :
  run_handler h args w
  = match h with
    | ErrorHandler this =>
        if listening this "error" w
        then Returned tt (errored this args w)
        else Threw (unhandled (nth 0 args VUndefined)) w
    | OpenHandler this => Returned tt (opened this w)
    end.
Proof.
  destruct h as [this | this]; [| reflexivity].
  cbn [run_handler]. unfold Base.on_error, emit. cbn [String.eqb Ascii.eqb Bool.eqb andb].
  by destruct (listening this "error" w).
Qed.

Lemma dispatch_cons n h rest name args w :
  dispatch ((n, h) :: rest) name args w
  = if String.eqb n name
    then match h with
         | ErrorHandler this =>
             if listening this "error" w
             then dispatch rest name args (errored this args w)
             else Threw (unhandled (nth 0 args VUndefined)) w
         | OpenHandler this => dispatch rest name args (opened this w)
         end
    else dispatch rest name args w.
Proof.
  cbn [dispatch]. unfold bind.
  destruct (String.eqb n name); cbn [when]; [| reflexivity].
  rewrite run_handler_effect.
  destruct h as [this | this]; [| reflexivity].
  by destruct (listening this "error" w).
Qed.

Lemma emitted_by_errored this that args w :
  emitted_by this (errored that args w)
  = emitted_by this w ++
      (if decide (that = this)
       then [mkEmission that "error" [nth 0 args VUndefined] (heap w !! that)]
       else []).
Proof.
  unfold errored, emitted_by. cbn [emitted with_emitted].
  rewrite filter_app, filter_cons, filter_nil. cbn [em_source].
  by destruct (decide (that = this)).
Qed.

Lemma emitted_by_opened this that w :
  emitted_by this (opened that w)
  = emitted_by this w ++
      (if decide (that = this)
       then [mkEmission that "ready" []
               (set_readyAt (VDate (clock w)) <$> heap w !! that)]
       else []).
Proof.
  unfold opened, emitted_by. cbn [emitted with_emitted with_heap heap].
  rewrite filter_app, filter_cons, filter_nil. cbn [em_source].
  rewrite list_lookup_alter_eq. by destruct (decide (that = this)).
Qed.

Lemma listener_ok_mono n m p :
  (n <= m)%nat -> listener_ok n p -> listener_ok m p.
Proof. unfold listener_ok. destruct p.2; intros ? [? ?]; (split; [done | lia]). Qed.

(** Whatever the event and however its delivery ends, it touches neither
    the number of instances, nor the listeners, the driver calls, the clock
    or the subscriptions. *)
Lemma dispatch_frame ls name args w :
  length (heap (world_of (dispatch ls name args w))) = length (heap w)
  /\ listeners (world_of (dispatch ls name args w)) = listeners w
  /\ calls (world_of (dispatch ls name args w)) = calls w
  /\ clock (world_of (dispatch ls name args w)) = clock w
  /\ subscribers (world_of (dispatch ls name args w)) = subscribers w.
Proof.
  revert w. induction ls as [| [n h] rest IH]; intros w; [done |].
  rewrite dispatch_cons. destruct (String.eqb n name); [| apply IH].
  destruct h as [i | i].
  - destruct (listening i "error" w); [| done].
    destruct (IH (errored i args w)) as (-> & -> & -> & -> & ->). done.
  - destruct (IH (opened i w)) as (-> & -> & -> & -> & ->).
    cbn. by rewrite length_alter.
Qed.

Lemma listening_ext this name w1 w2 :
  subscribers w1 = subscribers w2 ->
  listening this name w1 = listening this name w2.
Proof. unfold listening. by intros ->. Qed.

Lemma served_ext ls w1 w2 :
  subscribers w1 = subscribers w2 -> served ls w1 = served ls w2.
Proof.
  intros H. induction ls as [| [n [i | i]] rest IH]; cbn [served];
    [done | | done].
  by rewrite (listening_ext i "error" w1 w2 H), IH.
Qed.


(** The "error" event: the error listeners re-emit the payload one after
    the other, up to the first whose manager nobody listens to for errors;
    the store of instances is left as it is. *)
Lemma dispatch_error ls n args w :
  Forall (listener_ok n) ls ->
  world_of (dispatch ls "error" args w)
  = with_emitted
      (emitted w ++
       map (fun i => mkEmission i "error" [nth 0 args VUndefined]
                       (heap w !! i))
         (served ls w)) w.
Proof.
  revert w. induction ls as [| [name h] rest IH]; intros w Hok.
  - cbn. rewrite app_nil_r. by destruct w.
  - apply Forall_cons in Hok as [Hp Hok]. rewrite dispatch_cons.
    destruct h as [i | i]; destruct Hp as [Hn _]; cbn in Hn; subst name;
      cbn [String.eqb Ascii.eqb Bool.eqb served].
    + destruct (listening i "error" w).
      * rewrite (IH _ Hok), (served_ext rest (errored i args w) w eq_refl).
        unfold errored, with_emitted.
        cbn [heap emitted calls listeners clock subscribers map].
        by rewrite <- app_assoc.
      * cbn. rewrite app_nil_r. by destruct w.
    + by apply IH.
Qed.

Lemma filter_served_emissions this args w l :
  filter (fun e => em_source e = this)
    (map (fun i => mkEmission i "error" [nth 0 args VUndefined]
                     (heap w !! i)) l)
  = map (fun i => mkEmission i "error" [nth 0 args VUndefined] (heap w !! i))
      (filter (fun i => i = this) l).
Proof.
  induction l as [| i l IH]; [done |].
  cbn [map]. rewrite !filter_cons. cbn [em_source].
  destruct (decide (i = this)); cbn [map]; by rewrite IH.
Qed.

Lemma served_none this ls w :
  subscriptions (ErrorHandler this) ls = 0%nat ->
  filter (fun i => i = this) (served ls w) = [].
Proof.
  induction ls as [| [n [i | i]] rest IH]; cbn [served]; [done | |];
    rewrite subscriptions_cons; cbn [snd].
  - destruct (decide (ErrorHandler i = ErrorHandler this)) as [| Hne];
      [discriminate |].
    intros H. destruct (listening i "error" w); [| done].
    rewrite filter_cons, decide_False by congruence. by apply IH.
  - rewrite decide_False by done. exact IH.
Qed.

(** A manager somebody listens to, as to those before it, is served once. *)
Lemma served_once this ls w :
  subscriptions (ErrorHandler this) ls = 1%nat ->
  heard_until this ls w = true ->
  filter (fun i => i = this) (served ls w) = [this].
Proof.
  induction ls as [| [n [i | i]] rest IH]; cbn [served heard_until];
    [done | |]; rewrite subscriptions_cons; cbn [snd].
  - intros Hs [Hl Hh]%andb_prop. rewrite Hl, filter_cons.
    destruct (decide (i = this)) as [-> | Hne].
    + rewrite decide_True in Hs by done. injection Hs as Hs.
      by rewrite (served_none this rest w Hs).
    + rewrite decide_False in Hs by congruence.
      apply Nat.eqb_neq in Hne. rewrite Hne in Hh. by apply IH.
  - rewrite decide_False by done. exact IH.
Qed.

(** The "open" event: every open listener stores the time of the clock in
    [readyAt] of its instance and then emits "ready", which subscribers see
    with the time already stored. *)
Lemma dispatch_open ls n args w :
  Forall (listener_ok n) ls ->
  exists w',
    dispatch ls "open" args w = Returned tt w'
    /\ forall this b,
         heap w !! this = Some b ->
         heap w' !! this
         = Some match subscriptions (OpenHandler this) ls with
                | O => b
                | S _ => set_readyAt (VDate (clock w)) b
                end
         /\ emitted_by this w'
            = emitted_by this w ++
                replicate (subscriptions (OpenHandler this) ls)
                  (mkEmission this "ready" []
                     (Some (set_readyAt (VDate (clock w)) b))).
Proof.
  revert w. induction ls as [| [name h] rest IH]; intros w Hok.
  - exists w. split; [done |]. intros this b Hb. cbn. by rewrite app_nil_r.
  - apply Forall_cons in Hok as [Hp Hok]. rewrite dispatch_cons.
    destruct h as [i | i]; destruct Hp as [Hn _]; cbn in Hn; subst name;
      cbn [String.eqb Ascii.eqb Bool.eqb].
    + destruct (IH w Hok) as (w' & -> & Hw').
      exists w'. split; [done |]. intros this b Hb.
      rewrite subscriptions_cons. cbn [snd]. rewrite decide_False by done.
      by apply Hw'.
    + destruct (IH (opened i w) Hok) as (w' & -> & Hw').
      exists w'. split; [done |]. intros this b Hb.
      rewrite subscriptions_cons. cbn [snd].
      destruct (decide (i = this)) as [-> | Hne].
      * rewrite decide_True by done.
        destruct (Hw' this (set_readyAt (VDate (clock w)) b)) as [Hh Hem].
        { cbn. by rewrite list_lookup_alter_eq, Hb. }
        split.
        -- rewrite Hh. by destruct (subscriptions _ rest).
        -- rewrite Hem, emitted_by_opened, decide_True, Hb by done.
           cbn [replicate fmap option_fmap option_map].
           by rewrite <- app_assoc.
      * rewrite decide_False by congruence.
        destruct (Hw' this b) as [Hh Hem].
        { cbn. by rewrite list_lookup_alter_ne. }
        split; [exact Hh |].
        rewrite Hem, emitted_by_opened, decide_False by done.
        by rewrite app_nil_r.
Qed.

(** ** What every step of a run preserves *)

Lemma run_cons a acts w : run (a :: acts) w = run acts (step w a).
Proof. reflexivity. Qed.

Lemma run_app acts1 acts2 w : run (acts1 ++ acts2) w = run acts2 (run acts1 w).
Proof. apply fold_left_app. Qed.

Lemma destroy_frame this w :
  exists w',
    Base._destroyDatabase this w = Returned tt w'
    /\ length (heap w') = length (heap w)
    /\ listeners w' = listeners w
    /\ clock w' = clock w.
Proof.
  eexists. split; [reflexivity |]. cbn. by rewrite !length_alter.
Qed.

Lemma step_event w name args :
  step w (DriverEmit name args)
  = world_of (dispatch (listeners w) name args w).
Proof. reflexivity. Qed.

(** Subscribing and unsubscribing touch the subscriptions only. *)
Lemma step_subscription w a :
  match a with Subscribe _ _ | Unsubscribe _ _ => True | _ => False end ->
  heap (step w a) = heap w
  /\ listeners (step w a) = listeners w
  /\ calls (step w a) = calls w
  /\ clock (step w a) = clock w
  /\ emitted (step w a) = emitted w.
Proof.
  destruct a as [| | | | this name | this name]; try done; intros _.
  cbn [step]. by destruct (Nat.ltb this (length (heap w))).
Qed.

Lemma wf_init : wf init_world.
Proof. constructor. Qed.

Lemma wf_step w a : wf w -> wf (step w a).
Proof.
  unfold wf. intros Hw.
  destruct a as [url opts | this | name args | t | this name | this name].
  - cbn [step].
    destruct (constructor_outcome url opts w) as [[e H] | H]; rewrite H;
      cbn [world_of allocated constructed with_heap heap listeners];
      rewrite length_app; cbn [length].
    + eapply Forall_impl; [exact Hw |].
      intros p. apply listener_ok_mono. lia.
    + apply Forall_app. split.
      * eapply Forall_impl; [exact Hw |].
        intros p. apply listener_ok_mono. lia.
      * repeat constructor; cbn; lia.
  - cbn [step]. destruct (destroy_frame this w) as (w' & -> & Hl & Hls & _).
    cbn [world_of]. by rewrite Hl, Hls.
  - rewrite step_event.
    destruct (dispatch_frame (listeners w) name args w) as (-> & -> & _).
    exact Hw.
  - exact Hw.
  - by destruct (step_subscription w (Subscribe this name) I)
      as (-> & -> & _).
  - by destruct (step_subscription w (Unsubscribe this name) I)
      as (-> & -> & _).
Qed.

Lemma wf_run acts w : wf w -> wf (run acts w).
Proof.
  revert w. induction acts as [| a acts IH]; intros w Hw; [exact Hw |].
  rewrite run_cons. by apply IH, wf_step.
Qed.

Lemma registered_step this w a : registered this w -> registered this (step w a).
Proof.
  unfold registered. intros (Hlt & He & Ho).
  destruct a as [url opts | that | name args | t | that name | that name].
  - cbn [step].
    destruct (constructor_outcome url opts w) as [[e H] | H]; rewrite H;
      cbn [world_of allocated constructed with_heap heap listeners];
      rewrite length_app; cbn [length].
    + split; [lia | done].
    + rewrite !subscriptions_app, He, Ho, !subscriptions_cons. cbn [snd].
      rewrite !decide_False by (intros [= ?]; lia).
      split; [lia | done].
  - cbn [step]. destruct (destroy_frame that w) as (w' & -> & Hl & Hls & _).
    cbn [world_of]. by rewrite Hl, Hls.
  - rewrite step_event.
    by destruct (dispatch_frame (listeners w) name args w) as (-> & -> & _).
  - done.
  - by destruct (step_subscription w (Subscribe that name) I)
      as (-> & -> & _).
  - by destruct (step_subscription w (Unsubscribe that name) I)
      as (-> & -> & _).
Qed.

Lemma registered_run this acts w : registered this w -> registered this (run acts w).
Proof.
  revert w. induction acts as [| a acts IH]; intros w Hw; [exact Hw |].
  rewrite run_cons. by apply IH, registered_step.
Qed.

(** No listener is registered for an instance that does not exist yet. *)
Lemma unallocated_unsubscribed n ls i :
  Forall (listener_ok n) ls ->
  (n <= i)%nat ->
  subscriptions (ErrorHandler i) ls = 0%nat
  /\ subscriptions (OpenHandler i) ls = 0%nat.
Proof.
  intros Hok Hi. induction Hok as [| p ls Hp _ [IHe IHo]]; [done |].
  rewrite !subscriptions_cons. unfold listener_ok in Hp.
  split.
  - destruct (decide (p.2 = ErrorHandler i)) as [E | _]; [| exact IHe].
    rewrite E in Hp. lia.
  - destruct (decide (p.2 = OpenHandler i)) as [E | _]; [| exact IHo].
    rewrite E in Hp. lia.
Qed.

(** A manager that the constructor returned is registered. *)
Lemma constructed_registered url opts w this w1 :
  wf w ->
  Base.constructor url opts w = Returned this w1 ->
  registered this w1.
Proof.
  intros Hw H. apply constructor_returns in H as [-> ->].
  destruct (unallocated_unsubscribed _ _ (length (heap w)) Hw) as [He Ho];
    [lia |].
  unfold registered. cbn [constructed heap listeners].
  rewrite length_app, !subscriptions_app, He, Ho, !subscriptions_cons.
  cbn [snd length].
  repeat case_decide; try done.
  split; [lia | done].
Qed.

(** Only the environment moves the clock. *)
Lemma clock_step w a :
  clock (step w a) = match a with Tick t => t | _ => clock w end.
Proof.
  destruct a as [url opts | this | name args | t | this name | this name].
  - cbn [step].
    by destruct (constructor_outcome url opts w) as [[e H] | H]; rewrite H.
  - reflexivity.
  - rewrite step_event.
    by destruct (dispatch_frame (listeners w) name args w)
      as (_ & _ & _ & -> & _).
  - reflexivity.
  - by destruct (step_subscription w (Subscribe this name) I)
      as (_ & _ & _ & -> & _).
  - reflexivity.
Qed.


(** ** The two listeners of a manager *)

Lemma registered_lookup this w :
  registered this w -> exists b, heap w !! this = Some b.
Proof. intros [Hlt _]. by apply lookup_lt_is_Some_2. Qed.



Lemma constructed_wf url opts w this w1 :
  wf w -> Base.constructor url opts w = Returned this w1 -> wf w1.
Proof.
  intros Hw H. pose proof (wf_step w (New url opts) Hw) as H'.
  cbn [step] in H'. by rewrite H in H'.
Qed.

(** Where a run that started with nothing has got to, and any later moment
    of a manager constructed there. *)
Lemma manager_invariant hist url opts this w1 acts :
  Base.constructor url opts (run hist init_world) = Returned this w1 ->
  wf (run acts w1) /\ registered this (run acts w1).
Proof.
  intros H. pose proof (wf_run hist init_world wf_init) as Hw.
  split.
  - eapply wf_run, constructed_wf; eassumption.
  - eapply registered_run, constructed_registered; eassumption.
Qed.







(** ** What returns after construction *)

(** Teardown never ends in an exception, on any reference. *)
Lemma teardown_returns this w :
  exists w', Base._destroyDatabase this w = Returned tt w'.
Proof. destruct (destroy_frame this w) as (w' & H & _). by exists w'. Qed.

(** Nor does the delivery of an "open" event, in a world a run can reach. *)
Lemma open_event_returns hist args :
  exists w', connection_emit "open" args (run hist init_world) = Returned tt w'.
Proof.
  destruct (dispatch_open (listeners (run hist init_world)) _ args
              (run hist init_world) (wf_run hist init_world wf_init))
    as (w' & H & _).
  by exists w'.
Qed.

(** ** Which arguments the constructor accepts *)

Lemma accepted_returns url opts w :
  accepted url opts = true ->
  Base.constructor url opts w
  = Returned (length (heap w))
      (constructed url (default_parameter opts (VObject [])) w).
Proof.
  destruct url; try discriminate. cbn [accepted].
  intros [Hs Ho]%andb_prop. apply negb_true_iff in Ho.
  by apply constructor_valid.
Qed.

Lemma rejected_throws url opts w :
  accepted url opts = false ->
  exists e, Base.constructor url opts w = Threw e (allocated w).
Proof.
  intros H.
  destruct (String.eqb (typeof url) "string") eqn:Hty;
    [| by apply nonstring_url_fails].
  destruct url; try discriminate Hty. cbn [accepted] in H.
  rewrite constructor_string_url. cbv zeta.
  destruct (String.prefix "mongodb" s); cbn [negb andb] in *; [| by eexists].
  apply negb_false_iff in H. rewrite H. by eexists.
Qed.

(** X1: [new Base(url, opts)] returns a manager exactly when [url] is a
    string that starts with "mongodb" and the options, after the default,
    are falsy or of type "object".  Then the manager gets the next
    reference and the world is [constructed]: the two fields are set, one
    event is emitted, the driver is asked to connect once with the url and
    the two flags, the two listeners are registered.  Otherwise the
    constructor throws in the world [allocated]. *)
Theorem constructor_accepts_exactly url opts w :
  (accepted url opts = true
   /\ Base.constructor url opts w
      = Returned (length (heap w))
          (constructed url (default_parameter opts (VObject [])) w))
  \/ (accepted url opts = false
      /\ exists e, Base.constructor url opts w = Threw e (allocated w)).
Proof.
  destruct (accepted url opts) eqn:H; [left | right]; split; try reflexivity.
  - by apply accepted_returns.
  - by apply rejected_throws.
Qed.

(** X2: a constructor call that throws has had no effect that can be seen:
    no call to the driver, no listener registered, nothing emitted, the
    clock and the instances that existed are untouched. *)
Theorem failed_construction_leaves_no_trace url opts w e w' :
  Base.constructor url opts w = Threw e w' ->
  calls w' = calls w
  /\ listeners w' = listeners w
  /\ emitted w' = emitted w
  /\ clock w' = clock w
  /\ forall i b, heap w !! i = Some b -> heap w' !! i = Some b.
Proof.
  intros H.
  destruct (constructor_outcome url opts w) as [[e' H'] | H'];
    rewrite H' in H; [| discriminate H].
  injection H as <- <-. repeat split.
  intros i b Hb. cbn. by apply lookup_app_l_Some.
Qed.

Lemma failed_construction_leaves_no_trace_demo :
  calls (allocated demo_world) = calls demo_world
  /\ listeners (allocated demo_world) = listeners demo_world
  /\ emitted (allocated demo_world) = emitted demo_world
  /\ clock (allocated demo_world) = clock demo_world
  /\ forall i b,
       heap demo_world !! i = Some b ->
       heap (allocated demo_world) !! i = Some b.
Proof.
  apply (failed_construction_leaves_no_trace
           (VString "redis://localhost") (number 5) demo_world
           (VError ConfigurationError "No mongodb url was provided!")).
  reflexivity.
Defined.

(** X3: a falsy first argument of whatever type ([undefined], that is no
    argument at all, [null], [false], [0], [NaN], [0n], the empty string)
    stops at line 17 with the error "No mongodb url was provided!", without
    its type or the options being looked at. *)
Theorem falsy_url_is_no_url url opts w :
  truthy url = false ->
  Base.constructor url opts w
  = Threw (VError ConfigurationError "No mongodb url was provided!")
          (allocated w).
Proof.
  intros H. rewrite (constructor_checked url opts w true); [reflexivity |].
  unfold Base.no_mongodb_url. by rewrite H.
Qed.

Lemma falsy_url_is_no_url_missing :
  Base.constructor VUndefined (number 5) init_world
  = Threw (VError ConfigurationError "No mongodb url was provided!")
          (allocated init_world).
Proof. apply (falsy_url_is_no_url VUndefined). reflexivity. Defined.

(** X4: a truthy first argument whose [startsWith] property is not a
    function (numbers, [true], bigints, symbols, dates, functions, objects
    without such a method) makes line 17 throw the engine's TypeError,
    whatever the options. *)
Theorem url_without_method_throws_TypeError url f opts w :
  truthy url = true ->
  get_startsWith url = Normal f ->
  callable f = false ->
  Base.constructor url opts w
  = Threw (VError TypeError "mongodbURL.startsWith is not a function")
          (allocated w).
Proof.
  intros Ht Hg Hc. apply constructor_check_throws.
  unfold Base.no_mongodb_url, bind, complete, call_startsWith.
  rewrite Ht, Hg. cbn [negb]. by destruct f.
Qed.

Lemma url_without_method_throws_TypeError_date :
  Base.constructor (VDate 0) VUndefined init_world
  = Threw (VError TypeError "mongodbURL.startsWith is not a function")
          (allocated init_world).
Proof.
  apply (url_without_method_throws_TypeError (VDate 0) VUndefined);
    reflexivity.
Defined.

(** X5: an ordinary object with a [startsWith] method of its own is never
    accepted, and its method decides how it fails: what the method throws
    comes out of the constructor as it is; a falsy result gives the error of
    line 17; a truthy result gets the object to line 18, which rejects it
    for its type. *)
Theorem object_with_method_rejected props body opts w :
  own_property "startsWith" props = Some (VFunction body) ->
  Base.constructor (VObject props) opts w
  = Threw match body "mongodb" with
          | Abrupt e => e
          | Normal r =>
              if truthy r
              then VError ConfigurationError
                     "Expected a string for mongodbURL, received object"
              else VError ConfigurationError "No mongodb url was provided!"
          end (allocated w).
Proof.
  intros H.
  assert (call_startsWith (VObject props) "mongodb" = body "mongodb") as Hc
    by (unfold call_startsWith; cbn; by rewrite H).
  destruct (body "mongodb") as [r | e] eqn:Hb.
  - rewrite (constructor_checked _ opts w (negb (truthy r))).
    + cbv zeta. by destruct (truthy r).
    + unfold Base.no_mongodb_url, bind, complete. cbn [truthy negb].
      by rewrite Hc.
  - apply constructor_check_throws.
    unfold Base.no_mongodb_url, bind, complete. cbn [truthy negb].
    by rewrite Hc.
Qed.

Lemma object_with_method_rejected_boom :
  Base.constructor
    (VObject [("startsWith", VFunction (fun _ => Abrupt (VString "boom")))])
    VUndefined init_world
  = Threw (VString "boom") (allocated init_world).
Proof.
  apply (object_with_method_rejected
           [("startsWith", VFunction (fun _ => Abrupt (VString "boom")))]
           (fun _ => Abrupt (VString "boom"))).
  reflexivity.
Defined.

(** X6: a String object ([new String(s)]) is never accepted either: it is
    truthy even when empty and has the method, so it fails at line 17 when
    [s] does not start with "mongodb" and at line 18, for its type
    "object", when it does. *)
Theorem string_object_never_accepted s opts w :
  Base.constructor (VStringObject s) opts w
  = Threw (VError ConfigurationError
             (if String.prefix "mongodb" s
              then "Expected a string for mongodbURL, received object"
              else "No mongodb url was provided!"))
          (allocated w).
Proof.
  rewrite (constructor_checked _ opts w (negb (String.prefix "mongodb" s)));
    [| reflexivity].
  cbv zeta. by destruct (String.prefix "mongodb" s).
Qed.

(** ** A manager on its own *)

(** An event that is neither "error" nor "open" finds no listener. *)
Lemma dispatch_unknown ls n name args w :
  Forall (listener_ok n) ls ->
  String.eqb name "error" = false ->
  String.eqb name "open" = false ->
  dispatch ls name args w = Returned tt w.
Proof.
  intros Hok He Ho. induction Hok as [| [n' h] ls Hp _ IH]; [reflexivity |].
  rewrite dispatch_cons.
  assert (String.eqb n' name = false) as ->; [| exact IH].
  rewrite String.eqb_sym.
  unfold listener_ok in Hp. cbn in Hp.
  by destruct h; destruct Hp as [-> _].
Qed.

Lemma construct_other this url opts w :
  (this < length (heap w))%nat ->
  heap (step w (New url opts)) !! this = heap w !! this
  /\ emitted_by this (step w (New url opts)) = emitted_by this w.
Proof.
  intros Hlt. cbn [step].
  destruct (constructor_outcome url opts w) as [[e H] | H]; rewrite H;
    cbn [world_of allocated constructed with_heap heap].
  - split; [by apply lookup_app_l | reflexivity].
  - unfold constructed. cbn [heap].
    split; [by apply lookup_app_l |].
    unfold emitted_by. cbn [emitted].
    rewrite filter_app, filter_cons, filter_nil. cbn [em_source].
    rewrite decide_False by lia. by rewrite app_nil_r.
Qed.

Lemma destroy_other this that w :
  that <> this ->
  heap (step w (Teardown that)) !! this = heap w !! this
  /\ emitted_by this (step w (Teardown that)) = emitted_by this w.
Proof.
  intros Hne. cbn. split.
  - by rewrite !list_lookup_alter_ne.
  - unfold emitted_by. cbn [emitted].
    rewrite filter_app, filter_cons, filter_nil. cbn [em_source].
    rewrite decide_False by done. by rewrite app_nil_r.
Qed.

Lemma subscription_other this w a :
  match a with Subscribe _ _ | Unsubscribe _ _ => True | _ => False end ->
  heap (step w a) !! this = heap w !! this
  /\ emitted_by this (step w a) = emitted_by this w.
Proof.
  intros Ha. destruct (step_subscription w a Ha) as (Hh & _ & _ & _ & He).
  unfold emitted_by. by rewrite Hh, He.
Qed.

(** One step of the world, seen from a manager. *)
Lemma manager_step_sound this w a b :
  wf w -> registered this w -> heap w !! this = Some b ->
  heap (step w a) !! this = Some (manager_step this (b, clock w) a).1.1
  /\ clock (step w a) = (manager_step this (b, clock w) a).1.2
  /\ (error_heard this a w = true ->
      emitted_by this (step w a)
      = emitted_by this w ++ (manager_step this (b, clock w) a).2).
Proof.
  intros Hw Hr Hb. pose proof Hr as (Hlt & Hne & Hno).
  split; [| split; [rewrite clock_step; by destruct a; cbn;
                      repeat case_decide; repeat case_match |]].
  - destruct a as [url opts | that | name args | t | that name | that name];
      cbn [manager_step].
    + destruct (construct_other this url opts w Hlt) as [-> _]. exact Hb.
    + destruct (decide (that = this)) as [-> | Hd].
      * cbn [step]. rewrite (destroy_effect this w b Hb).
        by apply torn_down_lookup.
      * destruct (destroy_other this that w Hd) as [-> _]. exact Hb.
    + rewrite step_event.
      destruct (String.eqb name "error") eqn:He.
      * apply String.eqb_eq in He as ->.
        by rewrite (dispatch_error (listeners w) _ args w Hw).
      * destruct (String.eqb name "open") eqn:Ho.
        -- apply String.eqb_eq in Ho as ->.
           destruct (dispatch_open (listeners w) _ args w Hw)
             as (w' & -> & H').
           destruct (H' this b Hb) as [Hh _]. rewrite Hno in Hh.
           exact Hh.
        -- by rewrite (dispatch_unknown _ _ _ _ _ Hw He Ho).
    + exact Hb.
    + by destruct (subscription_other this w (Subscribe that name) I)
        as [-> _].
    + by destruct (subscription_other this w (Unsubscribe that name) I)
        as [-> _].
  - destruct a as [url opts | that | name args | t | that name | that name];
      cbn [manager_step error_heard]; intros Hheard.
    + destruct (construct_other this url opts w Hlt) as [_ ->].
      by rewrite app_nil_r.
    + destruct (decide (that = this)) as [-> | Hd].
      * cbn [step]. rewrite (destroy_effect this w b Hb).
        unfold emitted_by. cbn [world_of torn_down emitted snd].
        rewrite filter_app, filter_cons, filter_nil.
        cbn [em_source debug_disconnected]. by rewrite decide_True.
      * destruct (destroy_other this that w Hd) as [_ ->].
        by rewrite app_nil_r.
    + rewrite step_event.
      destruct (String.eqb name "error") eqn:He.
      * apply String.eqb_eq in He as ->.
        rewrite (dispatch_error (listeners w) _ args w Hw).
        unfold emitted_by. cbn [emitted with_emitted snd].
        rewrite filter_app, filter_served_emissions.
        rewrite (served_once this (listeners w) w Hne Hheard).
        cbn [map]. by rewrite Hb.
      * destruct (String.eqb name "open") eqn:Ho.
        -- apply String.eqb_eq in Ho as ->.
           destruct (dispatch_open (listeners w) _ args w Hw)
             as (w' & -> & H').
           destruct (H' this b Hb) as [_ Hem]. rewrite Hno in Hem.
           exact Hem.
        -- rewrite (dispatch_unknown _ _ _ _ _ Hw He Ho).
           cbn. by rewrite app_nil_r.
    + cbn. by rewrite app_nil_r.
    + destruct (subscription_other this w (Subscribe that name) I)
        as [_ ->]. cbn. by rewrite app_nil_r.
    + destruct (subscription_other this w (Unsubscribe that name) I)
        as [_ ->]. cbn. by rewrite app_nil_r.
Qed.

(** A whole run of the world, seen from a manager. *)
Lemma manager_run_sound this acts w b :
  wf w -> registered this w -> heap w !! this = Some b ->
  heap (run acts w) !! this = Some (manager_run this (b, clock w) acts).1.1
  /\ clock (run acts w) = (manager_run this (b, clock w) acts).1.2
  /\ (errors_heard this acts w = true ->
      emitted_by this (run acts w)
      = emitted_by this w ++ (manager_run this (b, clock w) acts).2).
Proof.
  revert w b. induction acts as [| a acts IH]; intros w b Hw Hr Hb.
  - cbn. by rewrite app_nil_r.
  - rewrite run_cons. cbn [manager_run errors_heard].
    destruct (manager_step_sound this w a b Hw Hr Hb) as (H1 & H2 & H3).
    destruct (manager_step this (b, clock w) a) as [[b1 t1] out1].
    cbn [fst snd] in H1, H2, H3.
    destruct (IH (step w a) b1) as (H1' & H2' & H3');
      [by apply wf_step | by apply registered_step | exact H1 |].
    rewrite H2 in H1', H2', H3'.
    destruct (manager_run this (b1, t1) acts) as [[b2 t2] out2].
    cbn [fst snd] in *. split; [done |]. split; [done |].
    intros [Ha Hrest]%andb_prop.
    rewrite (H3' Hrest), (H3 Ha), <- app_assoc. done.
Qed.

Lemma manager_run_cons this s a acts :
  manager_run this s (a :: acts)
  = ((manager_run this (manager_step this s a).1 acts).1,
     (manager_step this s a).2
     ++ (manager_run this (manager_step this s a).1 acts).2).
Proof.
  cbn [manager_run]. destruct (manager_step this s a) as [s1 out1].
  cbn [fst snd]. by destruct (manager_run this s1 acts).
Qed.

Lemma manager_step_fields this s a :
  options (manager_step this s a).1.1 = options s.1
  /\ dbURL (manager_step this s a).1.1
     = (if tears_down this [a] then VNull else dbURL s.1)
  /\ (reports_open [a] = false -> readyAt s.1 = VUndefined ->
      readyAt (manager_step this s a).1.1 = VUndefined).
Proof.
  destruct s as [b t].
  destruct a as [url opts | that | name args | t' | that name | that name];
    cbn [manager_step tears_down reports_open existsb orb fst snd].
  - done.
  - destruct (decide (that = this)) as [-> | Hne].
    + by rewrite Nat.eqb_refl.
    + by apply Nat.eqb_neq in Hne as ->.
  - destruct (String.eqb name "error"); [done |].
    by destruct (String.eqb name "open").
  - done.
  - done.
  - done.
Qed.

(** What the fields of a manager can become. *)
Lemma manager_run_fields this s acts :
  options (manager_run this s acts).1.1 = options s.1
  /\ dbURL (manager_run this s acts).1.1
     = (if tears_down this acts then VNull else dbURL s.1)
  /\ (reports_open acts = false -> readyAt s.1 = VUndefined ->
      readyAt (manager_run this s acts).1.1 = VUndefined).
Proof.
  revert s. induction acts as [| a acts IH]; intros s; [done |].
  rewrite manager_run_cons. cbn [fst].
  destruct (IH (manager_step this s a).1) as (Ho & Hu & Hr).
  destruct (manager_step_fields this s a) as (Ho1 & Hu1 & Hr1).
  cbn [tears_down reports_open existsb orb] in *.
  rewrite !orb_false_r in *.
  split; [congruence |]. split.
  - rewrite Hu, Hu1. unfold tears_down.
    by destruct a as [| that | | | |]; try destruct (Nat.eqb that this);
      destruct (existsb _ acts).
  - intros [H1 H2]%orb_false_elim Hs. auto.
Qed.

Lemma constructed_manager hist url opts this w1 :
  Base.constructor url opts (run hist init_world) = Returned this w1 ->
  wf w1 /\ registered this w1
  /\ heap w1 !! this = Some (fresh url (default_parameter opts (VObject []))).
Proof.
  intros H.
  destruct (manager_invariant hist url opts this w1 [] H) as [Hw Hr].
  split; [exact Hw |]. split; [exact Hr |].
  apply constructor_returns in H as [-> ->]. apply lookup_snoc.
Qed.

(** X7: a manager behaves as a small machine of its own.  From its
    construction on, whatever else happens in the world (other managers
    constructed or torn down, events, subscriptions, the clock), its fields
    are those of [manager_run]: its own teardown clears [dbURL] and
    [readyAt], an "open" event stores the time, nothing else changes a
    field.  So are the notifications it emits ("debug" on its teardown,
    "ready" on "open", the first argument of an "error" event re-emitted,
    nothing on anything else), provided that at every "error" event of the
    run somebody listens to the errors of the manager and of the managers
    constructed before it. *)
Theorem manager_is_a_machine hist url opts this w1 acts :
  Base.constructor url opts (run hist init_world) = Returned this w1 ->
  let r := manager_run this
             (fresh url (default_parameter opts (VObject [])), clock w1)
             acts in
  heap (run acts w1) !! this = Some r.1.1
  /\ clock (run acts w1) = r.1.2
  /\ (errors_heard this acts w1 = true ->
      emitted_by this (run acts w1) = emitted_by this w1 ++ r.2).
Proof.
  intros H. destruct (constructed_manager _ _ _ _ _ H) as (Hw & Hr & Hb).
  by apply manager_run_sound.
Qed.

Lemma manager_is_a_machine_demo :
  let acts := [New test_url VNull; Subscribe 0%nat "error"; Tick 3;
               DriverEmit "open" []; DriverEmit "error" [VString "boom"];
               DriverEmit "close" []; Teardown 0%nat; Teardown 1%nat] in
  let r := manager_run 0%nat
             (fresh test_url (default_parameter VUndefined (VObject [])),
              clock demo_world)
             acts in
  heap (run acts demo_world) !! 0%nat = Some r.1.1
  /\ clock (run acts demo_world) = r.1.2
  /\ emitted_by 0%nat (run acts demo_world)
     = emitted_by 0%nat demo_world ++ r.2.
Proof.
  destruct (manager_is_a_machine [] test_url VUndefined 0%nat demo_world
              [New test_url VNull; Subscribe 0%nat "error"; Tick 3;
               DriverEmit "open" []; DriverEmit "error" [VString "boom"];
               DriverEmit "close" []; Teardown 0%nat; Teardown 1%nat]
              eq_refl) as (Hf & Hc & Hem).
  split; [exact Hf |]. split; [exact Hc |]. apply Hem. reflexivity.
Defined.

(** X8: after construction nothing ever changes the options of a manager,
    and its [dbURL] is the connection string it was built with until its
    own first teardown and null from then on. *)
Theorem options_kept_url_until_teardown hist url opts this w1 acts :
  Base.constructor url opts (run hist init_world) = Returned this w1 ->
  exists b,
    heap (run acts w1) !! this = Some b
    /\ options b = default_parameter opts (VObject [])
    /\ dbURL b = (if tears_down this acts then VNull else url).
Proof.
  intros H. destruct (constructed_manager _ _ _ _ _ H) as (Hw & Hr & Hb).
  destruct (manager_run_sound this acts w1 _ Hw Hr Hb) as (Hh & _).
  eexists. split; [exact Hh |].
  destruct (manager_run_fields this
              (fresh url (default_parameter opts (VObject [])), clock w1) acts)
    as (Ho & Hu & _).
  by split.
Qed.

Lemma options_kept_url_until_teardown_demo :
  exists b,
    heap (run [DriverEmit "open" []; Teardown 0%nat; DriverEmit "open" []]
            demo_world) !! 0%nat = Some b
    /\ options b = default_parameter VUndefined (VObject [])
    /\ dbURL b
       = (if tears_down 0%nat
               [DriverEmit "open" []; Teardown 0%nat; DriverEmit "open" []]
          then VNull else test_url).
Proof.
  apply (options_kept_url_until_teardown [] test_url VUndefined 0%nat
           demo_world).
  reflexivity.
Defined.

(** X9: as long as the driver has not reported "open", [readyAt] of a
    manager is undefined, whatever else has happened since its
    construction. *)
Theorem readyAt_undefined_before_open hist url opts this w1 acts :
  Base.constructor url opts (run hist init_world) = Returned this w1 ->
  reports_open acts = false ->
  exists b, heap (run acts w1) !! this = Some b /\ readyAt b = VUndefined.
Proof.
  intros H Hno. destruct (constructed_manager _ _ _ _ _ H) as (Hw & Hr & Hb).
  destruct (manager_run_sound this acts w1 _ Hw Hr Hb) as (Hh & _).
  eexists. split; [exact Hh |].
  destruct (manager_run_fields this
              (fresh url (default_parameter opts (VObject [])), clock w1) acts)
    as (_ & _ & Hready).
  by apply Hready.
Qed.

Lemma readyAt_undefined_before_open_demo :
  exists b,
    heap (run [Tick 4; DriverEmit "error" [VString "boom"];
               New test_url VUndefined; DriverEmit "connected" []]
            demo_world) !! 0%nat = Some b
    /\ readyAt b = VUndefined.
Proof.
  apply (readyAt_undefined_before_open [] test_url VUndefined 0%nat
           demo_world); reflexivity.
Defined.

(** X10: teardown does not take the listeners of the manager off the
    connection.  When the driver reports "open" after a teardown, the torn
    down manager stores the time in [readyAt] again and emits "ready", its
    [dbURL] staying null. *)
Theorem torn_down_manager_still_listens hist url opts this w1 acts args :
  Base.constructor url opts (run hist init_world) = Returned this w1 ->
  let w2 := run acts w1 in
  let w3 := run [Teardown this; DriverEmit "open" args] w2 in
  exists b,
    heap w2 !! this = Some b
    /\ heap w3 !! this
       = Some {| dbURL := VNull; options := options b;
                 readyAt := VDate (clock w2) |}
    /\ emitted_by this w3
       = emitted_by this w2 ++
           [debug_disconnected this b;
            mkEmission this "ready" []
              (Some {| dbURL := VNull; options := options b;
                       readyAt := VDate (clock w2) |})].
Proof.
  intros H. cbv zeta.
  destruct (manager_invariant hist url opts this w1 acts H) as [Hw Hr].
  destruct (registered_lookup _ _ Hr) as [b Hb]. exists b.
  split; [exact Hb |].
  destruct (manager_run_sound this [Teardown this; DriverEmit "open" args]
              _ b Hw Hr Hb) as (Hh & _ & Hem).
  specialize (Hem eq_refl).
  cbn [manager_run manager_step] in Hh, Hem.
  rewrite decide_True in Hh, Hem by done.
  cbn in Hh, Hem. by split.
Qed.

Lemma torn_down_manager_still_listens_demo :
  let w2 := run [Tick 9] demo_world in
  let w3 := run [Teardown 0%nat; DriverEmit "open" []] w2 in
  exists b,
    heap w2 !! 0%nat = Some b
    /\ heap w3 !! 0%nat
       = Some {| dbURL := VNull; options := options b;
                 readyAt := VDate (clock w2) |}
    /\ emitted_by 0%nat w3
       = emitted_by 0%nat w2 ++
           [debug_disconnected 0%nat b;
            mkEmission 0%nat "ready" []
              (Some {| dbURL := VNull; options := options b;
                       readyAt := VDate (clock w2) |})].
Proof.
  apply (torn_down_manager_still_listens [] test_url VUndefined 0%nat
           demo_world [Tick 9] []).
  reflexivity.
Defined.

(** X11: the managers listen to "error" and "open" and to nothing else.  In
    any world a run can reach, an event of the driver under another name
    ("disconnected", "close", "reconnected") changes nothing and makes no
    manager emit anything. *)
Theorem unknown_event_ignored hist name args :
  String.eqb name "error" = false ->
  String.eqb name "open" = false ->
  connection_emit name args (run hist init_world)
  = Returned tt (run hist init_world).
Proof.
  intros He Ho.
  exact (dispatch_unknown _ _ name args _
           (wf_run hist init_world wf_init) He Ho).
Qed.

Lemma unknown_event_ignored_disconnected :
  connection_emit "disconnected" []
    (run [New test_url VUndefined; DriverEmit "open" []] init_world)
  = Returned tt
      (run [New test_url VUndefined; DriverEmit "open" []] init_world).
Proof.
  apply (unknown_event_ignored
           [New test_url VUndefined; DriverEmit "open" []] "disconnected" []);
    reflexivity.
Defined.

(** ** The driver over a whole run *)

Lemma step_accounts w a :
  length (heap (step w a))
  = match a with New _ _ => S (length (heap w)) | _ => length (heap w) end
  /\ listeners (step w a)
     = listeners w ++
         match a with
         | New url opts =>
             if accepted url opts then listeners_of (length (heap w)) else []
         | _ => []
         end
  /\ calls (step w a)
     = calls w ++ match call_of a with Some c => [c] | None => [] end.
Proof.
  destruct a as [url opts | this | name args | t | this name | this name];
    cbn [call_of]; [cbn [step] | cbn [step] | | cbn [step] | |].
  - destruct (accepted url opts) eqn:Ha.
    + rewrite (accepted_returns url opts w Ha).
      unfold constructed. cbn [world_of heap listeners calls].
      by rewrite length_app, Nat.add_1_r.
    + destruct (rejected_throws url opts w Ha) as [e ->].
      cbn [world_of allocated with_heap heap listeners calls].
      by rewrite length_app, Nat.add_1_r, !app_nil_r.
  - cbn. by rewrite !length_alter, app_nil_r.
  - rewrite step_event.
    destruct (dispatch_frame (listeners w) name args w)
      as (-> & -> & -> & _).
    by rewrite !app_nil_r.
  - cbn. by rewrite !app_nil_r.
  - destruct (step_subscription w (Subscribe this name) I)
      as (-> & -> & -> & _). by rewrite !app_nil_r.
  - destruct (step_subscription w (Unsubscribe this name) I)
      as (-> & -> & -> & _). by rewrite !app_nil_r.
Qed.

Lemma listeners_run acts w :
  listeners (run acts w)
  = listeners w ++ flat_map listeners_of (managers acts (length (heap w))).
Proof.
  revert w. induction acts as [| a acts IH]; intros w.
  - cbn. by rewrite app_nil_r.
  - rewrite run_cons, IH.
    destruct (step_accounts w a) as (Hl & -> & _). rewrite Hl.
    destruct a as [url opts | | | | |]; cbn [managers];
      rewrite <- ?app_assoc, ?app_nil_l; try reflexivity.
    rewrite flat_map_app. f_equal. f_equal.
    destruct (accepted url opts); cbn; by rewrite ?app_nil_r.
Qed.

Lemma heard_managers_ext ms w1 w2 :
  subscribers w1 = subscribers w2 ->
  heard_managers ms w1 = heard_managers ms w2
  /\ forallb (fun i => listening i "error" w1) ms
     = forallb (fun i => listening i "error" w2) ms.
Proof.
  intros H. induction ms as [| i ms [IH1 IH2]]; [done |].
  cbn [heard_managers forallb].
  by rewrite (listening_ext i "error" w1 w2 H), IH1, IH2.
Qed.

(** The "error" event going through the listeners of a list of managers. *)
Lemma dispatch_error_managers ms args w :
  dispatch (flat_map listeners_of ms) "error" args w
  = (if forallb (fun i => listening i "error" w) ms
     then Returned tt
     else Threw (unhandled (nth 0 args VUndefined)))
      (with_emitted
         (emitted w ++
          map (fun i => mkEmission i "error" [nth 0 args VUndefined]
                          (heap w !! i))
            (heard_managers ms w)) w).
Proof.
  revert w. induction ms as [| i ms IH]; intros w.
  - cbn. rewrite app_nil_r. by destruct w.
  - cbn [flat_map listeners_of app heard_managers forallb].
    rewrite dispatch_cons. cbn [String.eqb Ascii.eqb Bool.eqb].
    destruct (listening i "error" w); cbn [andb].
    + rewrite dispatch_cons. cbn [String.eqb Ascii.eqb Bool.eqb]. rewrite IH.
      destruct (heard_managers_ext ms (errored i args w) w eq_refl)
        as [-> ->].
      unfold errored, with_emitted.
      cbn [heap emitted calls listeners clock subscribers map].
      by rewrite <- app_assoc.
    + cbn. rewrite app_nil_r. by destruct w.
Qed.

(** X12: in any world a run can reach, when the driver reports "error",
    the managers constructed so far, torn down or not, are served in the
    order of their construction: each emits one "error" carrying the first
    argument of the event ([undefined] when there is none), as long as
    somebody listens to its errors.  At the first manager nobody listens
    to, the emitter throws (the payload when it is an Error) and the
    delivery ends there: the managers constructed later emit nothing.
    Nothing else changes: no field of any instance, no call to the driver
    (so no reconnection), no listener, not the clock. *)
Theorem error_reaches_managers_until_unheard hist args :
  connection_emit "error" args (run hist init_world)
  = (if forallb (fun i => listening i "error" (run hist init_world))
          (managers hist 0)
     then Returned tt
     else Threw (unhandled (nth 0 args VUndefined)))
      (with_emitted
         (emitted (run hist init_world) ++
          map (fun i => mkEmission i "error" [nth 0 args VUndefined]
                          (heap (run hist init_world) !! i))
            (heard_managers (managers hist 0) (run hist init_world)))
         (run hist init_world)).
Proof.
  rewrite (eq_refl : connection_emit "error" args (run hist init_world)
                     = dispatch (listeners (run hist init_world)) "error" args
                         (run hist init_world)).
  rewrite (listeners_run hist init_world) at 1. cbn [listeners init_world app].
  apply dispatch_error_managers.
Qed.

(** X13: the calls a run makes to the driver are exactly these, in order:
    one [connect], with the connection string and the two fixed flags, for
    every [new Base] that succeeds, and one [disconnect] for every teardown.
    No event of the driver and no failed construction makes the managers
    call the driver. *)
Theorem driver_calls_of_a_run acts w :
  calls (run acts w) = calls w ++ omap call_of acts.
Proof.
  revert w. induction acts as [| a acts IH]; intros w.
  - cbn. by rewrite app_nil_r.
  - rewrite run_cons, IH. destruct (step_accounts w a) as (_ & _ & ->).
    rewrite <- app_assoc. cbn [omap list_omap].
    by destruct (call_of a).
Qed.

(** X14: the listeners on the connection of the driver are exactly the two
    of every manager constructed so far, in the order of construction.
    Nothing, teardown included, ever removes one. *)
Theorem listeners_never_removed hist :
  listeners (run hist init_world)
  = flat_map listeners_of (managers hist 0).
Proof. apply (listeners_run hist init_world). Qed.

(** ** [_create] after teardown *)

(** X15: [_create] hands the driver the [dbURL] the manager has at that
    moment.  Called after a teardown it asks the driver to connect to null,
    not to the connection string the manager was built with, and it
    restores no field. *)
Theorem create_after_teardown_connects_to_null this w b :
  heap w !! this = Some b ->
  exists w1 w2,
    Base._destroyDatabase this w = Returned tt w1
    /\ Base._create this w1 = Returned tt w2
    /\ calls w2 = calls w ++ [Disconnect; Connect VNull compatibility_flags]
    /\ heap w2 = heap w1
    /\ heap w2 !! this = Some (cleared b).
Proof.
  intros H. pose proof (torn_down_lookup this w b H) as H1.
  exists (torn_down this b w). eexists.
  split; [by apply destroy_effect |].
  split; [reflexivity |].
  cbn [Base._create]. unfold bind, emit, read, gets, modify, mongoose.connect.
  cbn [heap calls with_emitted with_calls] in *. rewrite H1.
  cbn [dbURL cleared torn_down calls]. rewrite <- app_assoc. by repeat split.
Qed.

Lemma create_after_teardown_connects_to_null_demo :
  exists w1 w2,
    Base._destroyDatabase 0%nat demo_world = Returned tt w1
    /\ Base._create 0%nat w1 = Returned tt w2
    /\ calls w2
       = calls demo_world ++ [Disconnect; Connect VNull compatibility_flags]
    /\ heap w2 = heap w1
    /\ heap w2 !! 0%nat = Some (cleared (fresh test_url (VObject []))).
Proof.
  apply (create_after_teardown_connects_to_null 0%nat demo_world
           (fresh test_url (VObject []))).
  reflexivity.
Defined.

(** The "open" event going through the listeners of a list of managers. *)
Lemma dispatch_open_managers ms args w :
  exists w' added,
    dispatch (flat_map listeners_of ms) "open" args w = Returned tt w'
    /\ emitted w' = emitted w ++ added
    /\ map (fun e => (em_source e, em_name e, em_args e)) added
       = map (fun i => (i, "ready", [])) ms
    /\ calls w' = calls w
    /\ clock w' = clock w.
Proof.
  revert w. induction ms as [| i ms IH]; intros w.
  - exists w, []. cbn. by rewrite app_nil_r.
  - cbn [flat_map listeners_of app]. rewrite !dispatch_cons.
    cbn [String.eqb Ascii.eqb Bool.eqb].
    destruct (IH (opened i w)) as (w' & added & -> & Hem & Hkeys & Hc & Ht).
    eexists w', (_ :: added). split; [reflexivity |].
    split; [rewrite Hem; unfold opened; cbn [emitted with_emitted with_heap];
            by rewrite <- app_assoc |].
    split; [cbn [map em_source em_name em_args]; by rewrite Hkeys |].
    by split.
Qed.

(** X16: in any world a run can reach, when the driver reports "open",
    every manager constructed so far, torn down or not, emits one "ready"
    without payload, the managers taking their turn in the order of their
    construction, and nothing but these notifications is emitted; no call
    is made to the driver and the clock is not touched. *)
Theorem open_reaches_every_manager hist args :
  exists w' added,
    connection_emit "open" args (run hist init_world) = Returned tt w'
    /\ emitted w' = emitted (run hist init_world) ++ added
    /\ map (fun e => (em_source e, em_name e, em_args e)) added
       = map (fun i => (i, "ready", [])) (managers hist 0)
    /\ calls w' = calls (run hist init_world)
    /\ clock w' = clock (run hist init_world).
Proof.
  pose proof (listeners_run hist init_world) as Hl.
  cbn [listeners init_world app length heap] in Hl.
  destruct (dispatch_open_managers (managers hist 0) args
              (run hist init_world)) as (w' & added & H & Hrest).
  exists w', added. split; [| exact Hrest].
  unfold connection_emit, bind, gets. by rewrite Hl.
Qed.
